(** * Crowding correction and export of the TOI-560 light curve

    A shallow embedding of the part of [tess_cbvs_correction_toi-560.ipynb]
    that the notebook authors itself: the crowding correction (the cell that
    computes [median_flux] ... [lc_cbv_corr]), the normalisation (the cell
    that computes [e] and [f]) and the export loop (the cell that writes
    [toi560_sec34_cbvcorrected.dat]).

    Numbers.  The notebook computes with numpy float64 arrays and Python
    floats.  The cells are embedded twice.

    - Over [npfloat], which keeps the IEEE special values (the two
      infinities and NaN) and the rules that produce them, and takes finite
      values as exact rationals.  It serves the export loop and the
      properties that binary64 shares exactly: the propagation of NaN and
      of infinities, division by zero, division by one, the order
      statistics behind the median.  Rounding, overflow and the sign of
      zero are not in it.

    - Over binary64 itself, in module [B64]: every operation is the
      primitive IEEE 754 double operation, rounded to nearest, with
      overflow, underflow and signed zeros.  It serves every property whose
      truth depends on rounding or overflow. *)

From Stdlib Require Import QArith Qabs Lqa Ascii.
From Stdlib Require Floats Uint63.
From stdpp Require Import gmap strings pretty list sorting.

Open Scope Q_scope.

(** ** Floating-point values *)

Inductive npfloat : Type :=
  | Fin (q : Q)
  | PInf
  | NInf
  | NaN.

Declare Scope np_scope.
Delimit Scope np_scope with np.
Bind Scope np_scope with npfloat.

Definition is_nan (x : npfloat) : bool :=
  match x with NaN => true | _ => false end.

Definition is_finite (x : npfloat) : bool :=
  match x with Fin _ => true | _ => false end.

(** The rational carried by a finite value (0 for the special values; only
    used on finite values). *)
Definition to_Q (x : npfloat) : Q :=
  match x with Fin q => q | _ => 0 end.

Definition fneg (x : npfloat) : npfloat :=
  match x with
  | Fin q => Fin (- q)
  | PInf => NInf
  | NInf => PInf
  | NaN => NaN
  end.

Definition fadd (x y : npfloat) : npfloat :=
  match x, y with
  | NaN, _ | _, NaN => NaN
  | Fin a, Fin b => Fin (a + b)
  | PInf, NInf | NInf, PInf => NaN
  | PInf, _ | _, PInf => PInf
  | NInf, _ | _, NInf => NInf
  end.

Definition fsub (x y : npfloat) : npfloat := fadd x (fneg y).

(** An infinity of the sign of [q]; NaN when [q] is zero. *)
Definition signed_inf (q : Q) : npfloat :=
  match q ?= 0 with
  | Gt => PInf
  | Lt => NInf
  | Eq => NaN
  end.

Definition fmul (x y : npfloat) : npfloat :=
  match x, y with
  | NaN, _ | _, NaN => NaN
  | Fin a, Fin b => Fin (a * b)
  | PInf, Fin q | Fin q, PInf => signed_inf q
  | NInf, Fin q | Fin q, NInf => signed_inf (- q)
  | PInf, PInf | NInf, NInf => PInf
  | PInf, NInf | NInf, PInf => NInf
  end.

(** Division.  A finite value divided by zero is an infinity of the sign of
    the numerator, and 0/0 is NaN: the outcome of numpy's [true_divide]
    (which warns and goes on). *)
Definition fdiv (x y : npfloat) : npfloat :=
  match x, y with
  | NaN, _ | _, NaN => NaN
  | Fin a, Fin b =>
      match b ?= 0 with
      | Eq => signed_inf a
      | _ => Fin (a / b)
      end
  | Fin _, PInf | Fin _, NInf => Fin 0
  | PInf, Fin b => match b ?= 0 with Lt => NInf | _ => PInf end
  | NInf, Fin b => match b ?= 0 with Lt => PInf | _ => NInf end
  | PInf, PInf | PInf, NInf | NInf, PInf | NInf, NInf => NaN
  end.

Infix "+" := fadd : np_scope.
Infix "-" := fsub : np_scope.
Infix "*" := fmul : np_scope.
Infix "/" := fdiv : np_scope.

(** The order numpy sorts by: NaN is placed after every other value. *)
Definition fleb (x y : npfloat) : bool :=
  match x, y with
  | _, NaN => true
  | NaN, _ => false
  | NInf, _ => true
  | _, NInf => false
  | _, PInf => true
  | PInf, _ => false
  | Fin a, Fin b => Qle_bool a b
  end.

Definition fle (x y : npfloat) : Prop := fleb x y = true.

#[global] Instance fle_dec : RelDecision fle.
Proof. intros x y. unfold fle. apply _. Defined.

(** Two values are the same number: equal rationals, or the same special
    value. *)
Definition same (x y : npfloat) : Prop :=
  match x, y with
  | Fin a, Fin b => a == b
  | PInf, PInf | NInf, NInf | NaN, NaN => True
  | _, _ => False
  end.

#[global] Instance npfloat_equiv : Equiv npfloat := same.

(** A Python float from an integer count (the element count of an array). *)
Definition of_nat (n : nat) : npfloat := Fin (inject_Z (Z.of_nat n)).

(** ** numpy reductions *)

(** [np.sum]: the elements added up from zero. *)
Definition np_sum (a : list npfloat) : npfloat :=
  fold_left fadd a (Fin 0).

(** [np.mean]: the sum divided by the element count.  On an empty array
    this is 0/0, that is NaN. *)
Definition np_mean (a : list npfloat) : npfloat :=
  (np_sum a / of_nat (length a))%np.

(** The Python slice [a[lo:hi]] for [0 <= lo]. *)
Definition slice {A} (a : list A) (lo hi : nat) : list A :=
  take (hi - lo) (drop lo a).

(** [np.median]: NaN when the data hold a NaN; otherwise the mean of the
    middle slice of a sorted copy, which has one element when the size is
    odd and two when it is even (and none, giving NaN, when the array is
    empty). *)
Definition np_median (a : list npfloat) : npfloat :=
  if existsb is_nan a then NaN
  else
    let part := merge_sort fle a in
    let sz := length part in
    let index := (sz / 2)%nat in
    if Nat.odd sz then np_mean (slice part index (index + 1))
    else np_mean (slice part (index - 1) (index + 1)).

(** ** The crowding correction (notebook cell "Correcting for Crowding") *)

Record LightCurve : Type := mkLightCurve {
  time : list npfloat;
  flux : list npfloat;
  flux_err : list npfloat
}.

Section Crowding.
(** [corrected_lc] is [cbvCorrector.corrected_lc], the light curve that
    the CBV corrector returned; [CROWDSAP] and [FLFRCSAP] are the two
    header values. *)
Variable corrected_lc : LightCurve.
Variables CROWDSAP FLFRCSAP : npfloat.

Definition median_flux : npfloat := np_median (flux corrected_lc).

Definition excess_flux : npfloat := ((Fin 1 - CROWDSAP) * median_flux)%np.

Definition flux_removed : list npfloat :=
  (fun x => (x - excess_flux)%np) <$> flux corrected_lc.

Definition flux_corr : list npfloat :=
  (fun x => (x / FLFRCSAP)%np) <$> flux_removed.

Definition flux_err_corr : list npfloat :=
  (fun x => (x / FLFRCSAP)%np) <$> flux_err corrected_lc.

(** [tpf_time] is [tpf.time.value]. *)
Definition lc_cbv_corr (tpf_time : list npfloat) : LightCurve :=
  {| time := tpf_time; flux := flux_corr; flux_err := flux_err_corr |}.
End Crowding.

(** ** Normalisation (notebook cell "Save the data", first part) *)

Definition e (lc : LightCurve) : list npfloat :=
  (fun x => (x / np_mean (flux lc))%np) <$> flux_err lc.

Definition f (lc : LightCurve) : list npfloat :=
  (fun x => (x / np_mean (flux lc))%np) <$> flux lc.

(** ** Files and exceptions *)

(** The exceptions the modelled code can raise: indexing a sequence out of
    range.  The numpy operations above do not raise. *)
Inductive exn : Type :=
  | IndexError.

Inductive result (A : Type) : Type :=
  | Ok (a : A)
  | Raise (ex : exn).
Arguments Ok {A} a.
Arguments Raise {A} ex.

(** A file is the sequence of strings written to it; the file system maps
    names to files.  A computation threads the file system and ends with a
    value or an exception. *)
Definition py (A : Type) : Type :=
  gmap string (list string) -> gmap string (list string) * result A.

#[global] Instance py_ret : MRet py := fun A a fs => (fs, Ok a).

#[global] Instance py_bind : MBind py := fun A B k m fs =>
  match m fs with
  | (fs', Ok a) => k a fs'
  | (fs', Raise ex) => (fs', Raise ex)
  end.

(** [a[i]]: IndexError out of range. *)
Definition getitem {A} (a : list A) (i : nat) : py A :=
  fun fs =>
    match a !! i with
    | Some x => (fs, Ok x)
    | None => (fs, Raise IndexError)
    end.

(** [open(name, 'w')]: creates the file, or truncates it. *)
Definition open_w (name : string) : py unit :=
  fun fs => (<[name := []]> fs, Ok tt).

(** [datos.write(s)] on the file opened as [name]. *)
Definition write (name : string) (s : string) : py unit :=
  fun fs => (<[name := default [] (fs !! name) ++ [s]]> fs, Ok tt).

(** [for i in idx: body(i)]. *)
Fixpoint for_each (idx : list nat) (body : nat -> py unit) : py unit :=
  match idx with
  | [] => mret tt
  | i :: rest => body i;; for_each rest body
  end.

(** [range(n)]. *)
Definition range (n : nat) : list nat := seq 0 n.

Definition newline : string := String "010"%char EmptyString.

Definition fname : string := "toi560_sec34_cbvcorrected.dat".

Section ExportCell.
(** What ['{}'.format] prints for an element of the time column and for
    an element of a flux column: the formatting of astropy and numpy,
    which the notebook does not define. *)
Variable str_time : npfloat -> string.
Variable str_flux : npfloat -> string.

(** ['{}  {} {} \n'.format(t, fi, ei)]. *)
Definition format (t fi ei : npfloat) : string :=
  str_time t +:+ "  " +:+ str_flux fi +:+ " " +:+ str_flux ei +:+ " " +:+ newline.

(** The export cell: the file is opened for writing, then one line is
    written per index of the time column. *)
Definition save (lc : LightCurve) : py unit :=
  open_w fname;;
  for_each (range (length (time lc))) (fun i =>
    t ← getitem (time lc) i;
    fi ← getitem (f lc) i;
    ei ← getitem (e lc) i;
    write fname (format t fi ei)).

(** The three cells in sequence. *)
Definition notebook (corrected_lc : LightCurve) (tpf_time : list npfloat)
    (CROWDSAP FLFRCSAP : npfloat) : py unit :=
  save (lc_cbv_corr corrected_lc CROWDSAP FLFRCSAP tpf_time).
End ExportCell.

(** A formatter for the worked examples: a fraction, or the name of the
    special value.  The theorems hold for every formatter. *)
Definition show (x : npfloat) : string :=
  match x with
  | Fin q => pretty (Qnum q) +:+ "/" +:+ pretty (Z.pos (Qden q))
  | PInf => "inf"
  | NInf => "-inf"
  | NaN => "nan"
  end.

(** ** Rational counterparts, for stating results on finite data *)

(** The sum of a list of rationals, added up as [np_sum] does. *)
Definition Qsum (l : list Q) : Q := fold_left Qplus l 0.

(** The element count as a rational. *)
Definition Qlen {A} (l : list A) : Q := inject_Z (Z.of_nat (length l)).

(** ** The standard median, as the specification words it *)

(** The middle value of a sorted sequence: the element in the middle when
    the length is odd, the average of the two middle elements when it is
    even.  An empty sequence has none. *)
Definition middle_value (s : list Q) (m : Q) : Prop :=
  let n := length s in
  if Nat.odd n then
    exists a, s !! (n / 2)%nat = Some a /\ m == a
  else
    exists a b, s !! (n / 2 - 1)%nat = Some a /\ s !! (n / 2)%nat = Some b /\
                m == (a + b) / 2.

(** [m] is the median of [l]: the middle value of a sorted rearrangement of
    [l]. *)
Definition standard_median (l : list Q) (m : Q) : Prop :=
  exists s, s ≡ₚ l /\ Sorted Qle s /\ middle_value s m.

(** The number of elements of [l] that satisfy [p]. *)
Fixpoint count_if (p : Q -> bool) (l : list Q) : nat :=
  match l with
  | [] => 0
  | x :: t => ((if p x then 1 else 0) + count_if p t)%nat
  end.

(** [x < v] and [x <= v] as tests on [x]. *)
Definition below (v x : Q) : bool := negb (Qle_bool v x).
Definition at_most (v x : Q) : bool := Qle_bool x v.

(** A run that ended with an exception. *)
Definition raises {A} (r : result A) : Prop := exists ex, r = Raise ex.

(** ** The worked example of the specification *)

Definition example_lc : LightCurve :=
  mkLightCurve [Fin 0; Fin 1; Fin 2] [Fin 100; Fin 110; Fin 90] [Fin 5; Fin 5; Fin 5].

Definition example_CROWDSAP : npfloat := Fin (96 # 100).
Definition example_FLFRCSAP : npfloat := Fin (93 # 100).

Definition example_corr : LightCurve :=
  lc_cbv_corr example_lc example_CROWDSAP example_FLFRCSAP (time example_lc).

(** ** The expected file content *)

(** Line [i] of the export, when the three columns reach index [i]. *)
Definition line_at (str_time str_flux : npfloat -> string) (lc : LightCurve)
    (i : nat) : option string :=
  t ← time lc !! i;
  fi ← f lc !! i;
  ei ← e lc !! i;
  Some (format str_time str_flux t fi ei).

(** * The same cells over binary64 *)

Module B64.
Import PrimFloat FloatOps FloatAxioms SpecFloat.
Local Open Scope float_scope.

(** ** Values *)

(** [np.isfinite]. *)
Definition is_finite (x : float) : bool :=
  match Prim2SF x with
  | S754_zero _ | S754_finite _ _ _ => true
  | _ => false
  end.

(** A zero of either sign. *)
Definition is_zero (x : float) : bool :=
  match Prim2SF x with
  | S754_zero _ => true
  | _ => false
  end.

(** The rational a finite double stands for. *)
Definition to_Q (x : float) : option Q :=
  match Prim2SF x with
  | S754_zero _ => Some 0%Q
  | S754_finite s m e =>
      Some ((if s then - inject_Z (Z.pos m) else inject_Z (Z.pos m)) * 2 ^ e)%Q
  | _ => None
  end.

(** The order numpy sorts by: [<=], with NaN after every other value. *)
Definition fle (x y : float) : Prop := (x <=? y) || is_nan y = true.

#[global] Instance fle_dec : RelDecision fle.
Proof. intros x y. unfold fle. apply _. Defined.

(** The element count as a double. *)
Definition of_nat (n : nat) : float := of_uint63 (Uint63.of_Z (Z.of_nat n)).

(** ** numpy reductions *)

(** The eight running sums of numpy's unrolled loop: [r[j] += a[i + j]]
    for every further full block of eight; what is left of [a] is returned
    with them. *)
Fixpoint lanes (fuel : nat) (r a : list float) : list float * list float :=
  match fuel with
  | O => (r, a)
  | S k =>
      if (8 <=? length a)%nat
      then lanes k (zip_with PrimFloat.add r (take 8 a)) (drop 8 a)
      else (r, a)
  end.

(** A block of 8 to 128 elements: eight running sums, added up as a
    balanced tree, then the elements beyond the last full block of eight. *)
Definition block_sum (a : list float) : float :=
  match lanes (length a) (take 8 a) (drop 8 a) with
  | ([r0; r1; r2; r3; r4; r5; r6; r7], rest) =>
      fold_left PrimFloat.add rest
        (((r0 + r1) + (r2 + r3)) + ((r4 + r5) + (r6 + r7)))
  | _ => nan
  end.

(** numpy's pairwise summation: below 8 elements a plain loop, which starts
    from -0.0 so that a sum of negative zeros keeps its sign; up to 128
    elements the unrolled block; above that the sum of the two halves (the
    first one cut to a multiple of 8).  [fuel] bounds the depth of the
    halving; the number of elements is enough. *)
Fixpoint pairwise_sum (fuel : nat) (a : list float) : float :=
  let n := length a in
  if (n <? 8)%nat then fold_left PrimFloat.add a neg_zero
  else if (n <=? 128)%nat then block_sum a
  else
    match fuel with
    | O => nan
    | S k =>
        let n2 := (n / 2 - (n / 2) mod 8)%nat in
        pairwise_sum k (take n2 a) + pairwise_sum k (drop n2 a)
    end.

(** [np.sum] of a one-dimensional float64 array: 0.0 when it is empty;
    otherwise the pairwise sum added to the start value of a non-empty
    reduction, -0.0.  (numpy releases that start from +0.0 instead differ
    in the sign of a zero sum only.) *)
Definition np_sum (a : list float) : float :=
  match a with
  | [] => 0
  | _ => neg_zero + pairwise_sum (length a) a
  end.

(** [np.mean]: the sum divided by the element count; NaN on an empty
    array (0/0). *)
Definition np_mean (a : list float) : float := np_sum a / of_nat (length a).

(** [np.median]: NaN when the data hold a NaN; otherwise the mean of the
    middle slice of a sorted copy: one element when the size is odd, two
    when it is even, none (NaN) when the array is empty. *)
Definition np_median (a : list float) : float :=
  if existsb PrimFloat.is_nan a then nan
  else
    let part := merge_sort fle a in
    let sz := length part in
    let index := (sz / 2)%nat in
    if Nat.odd sz then np_mean (slice part index (index + 1))
    else np_mean (slice part (index - 1) (index + 1)).

(** ** The crowding correction *)

Record LightCurve : Type := mkLightCurve {
  time : list float;
  flux : list float;
  flux_err : list float
}.

Section Crowding.
Variable corrected_lc : LightCurve.
Variables CROWDSAP FLFRCSAP : float.

Definition median_flux : float := np_median (flux corrected_lc).

Definition excess_flux : float := (1 - CROWDSAP) * median_flux.

Definition flux_removed : list float :=
  (fun x => x - excess_flux) <$> flux corrected_lc.

Definition flux_corr : list float :=
  (fun x => x / FLFRCSAP) <$> flux_removed.

Definition flux_err_corr : list float :=
  (fun x => x / FLFRCSAP) <$> flux_err corrected_lc.

(** The columns handed to [lk.LightCurve].  For columns of one length and
    finite time stamps the constructor keeps them as they are; it rejects
    other input, which the statements below do not reach. *)
Definition lc_cbv_corr (tpf_time : list float) : LightCurve :=
  {| time := tpf_time; flux := flux_corr; flux_err := flux_err_corr |}.
End Crowding.

(** ** Normalisation *)

Definition e (lc : LightCurve) : list float :=
  (fun x => x / np_mean (flux lc)) <$> flux_err lc.

Definition f (lc : LightCurve) : list float :=
  (fun x => x / np_mean (flux lc)) <$> flux lc.

(** [x] is finite and within [tol] of the rational [q]. *)
Definition within (x : float) (q tol : Q) : bool :=
  match to_Q x with
  | Some v => Qle_bool (Qabs (v - q)) tol
  | None => false
  end.

(** ** The worked example *)

(** The doubles that the Python literals 0.96, 0.93 and 0.9 denote. *)
Definition d0_96 : float := 0x1.eb851eb851eb8p-1.
Definition d0_93 : float := 0x1.dc28f5c28f5c3p-1.
Definition d0_9 : float := 0x1.ccccccccccccdp-1.

Definition example_lc : LightCurve :=
  mkLightCurve [0; 1; 2] [100; 110; 90] [5; 5; 5].

Definition example_corr : LightCurve :=
  lc_cbv_corr example_lc d0_96 d0_93 (time example_lc).

End B64.

(** * Properties *)

(** Closed comparisons of rationals. *)
Ltac Qclosed :=
  vm_compute; first [reflexivity | discriminate | (intros H; discriminate H)].

(** ** The model at work *)

Example median_odd : np_median [Fin 100; Fin 110; Fin 90] ≡ Fin 100.
Proof. Qclosed. Qed.

Example median_even : np_median [Fin 100; Fin 110; Fin 90; Fin 120] ≡ Fin 105.
Proof. Qclosed. Qed.

Example median_with_nan : np_median [Fin 1; NaN; Fin 3] = NaN.
Proof. reflexivity. Qed.

Example median_with_inf : np_median [PInf; Fin 1; NInf] ≡ Fin 1.
Proof. Qclosed. Qed.

Example mean_empty : np_mean [] = NaN.
Proof. reflexivity. Qed.

Example division_by_zero :
  (Fin 5 / Fin 0)%np = PInf /\ (Fin (-5) / Fin 0)%np = NInf /\
  (Fin 0 / Fin 0)%np = NaN /\ (PInf / PInf)%np = NaN.
Proof. repeat split. Qed.

(** An error column shorter than the time column: the loop writes the
    lines it can and then stops on an IndexError. *)
Example save_misaligned :
  let r := save show show (mkLightCurve [Fin 0; Fin 1] [Fin 2; Fin 2] [Fin 1]) ∅ in
  r.2 = Raise IndexError /\ length <$> r.1 !! fname = Some 1%nat.
Proof. split; vm_compute; reflexivity. Qed.

(** ** Arithmetic on finite values *)

#[global] Instance same_equivalence : Equivalence same.
Proof.
  split.
  - intros [a| | |]; simpl; auto with qarith.
  - intros [a| | |] [b| | |]; simpl; auto with qarith.
  - intros [a| | |] [b| | |] [c| | |]; simpl; try tauto. apply Qeq_trans.
Qed.

Lemma Qcompare_zero_neq (b : Q) : ~ b == 0 -> (b ?= 0) <> Eq.
Proof. intros Hb E. apply Hb. now apply Qeq_alt. Qed.

Lemma fdiv_fin (a b : Q) : ~ b == 0 -> (Fin a / Fin b)%np = Fin (a / b).
Proof.
  intros Hb. unfold fdiv.
  destruct (b ?= 0) eqn:E; try reflexivity.
  now apply Qcompare_zero_neq in Hb.
Qed.

Lemma fdiv_by_zero (a b : Q) : b == 0 -> (Fin a / Fin b)%np = signed_inf a.
Proof.
  intros Hb. unfold fdiv. apply Qeq_alt in Hb. now rewrite Hb.
Qed.

Lemma fdiv_one (x : npfloat) : (x / Fin 1)%np ≡ x.
Proof.
  destruct x as [a| | |]; try exact I.
  rewrite fdiv_fin by (intros H; discriminate H).
  change (a / 1 == a). field.
Qed.

Lemma signed_inf_not_finite (a : Q) : is_finite (signed_inf a) = false.
Proof. unfold signed_inf. now destruct (a ?= 0). Qed.

Lemma fdiv_zero_not_finite (x : npfloat) : is_finite (x / Fin 0)%np = false.
Proof.
  destruct x as [a| | |]; try reflexivity.
  rewrite fdiv_by_zero by reflexivity. apply signed_inf_not_finite.
Qed.

(** ** Sums and means of finite data *)

Lemma fold_fadd_fin (l : list Q) (acc : Q) :
  fold_left fadd (Fin <$> l) (Fin acc) = Fin (fold_left Qplus l acc).
Proof.
  revert acc. induction l as [|x l IH]; intros acc; simpl; [reflexivity|].
  apply IH.
Qed.

Lemma np_sum_fin (l : list Q) : np_sum (Fin <$> l) = Fin (Qsum l).
Proof. apply fold_fadd_fin. Qed.

Lemma Qlen_nonzero {A} (l : list A) : l <> [] -> ~ Qlen l == 0.
Proof.
  intros Hl H. destruct l as [|x l]; [congruence|].
  unfold Qlen, Qeq in H. simpl in H. lia.
Qed.

Lemma np_mean_fin (l : list Q) :
  l <> [] -> np_mean (Fin <$> l) = Fin (Qsum l / Qlen l).
Proof.
  intros Hl. unfold np_mean, of_nat.
  rewrite np_sum_fin, length_fmap.
  now apply fdiv_fin, Qlen_nonzero.
Qed.

(** ** The crowding correction *)

Lemma length_flux_corr lc C F : length (flux_corr lc C F) = length (flux lc).
Proof. unfold flux_corr, flux_removed. now rewrite !length_fmap. Qed.

Lemma length_flux_err_corr lc F :
  length (flux_err_corr lc F) = length (flux_err lc).
Proof. unfold flux_err_corr. now rewrite length_fmap. Qed.

Lemma flux_corr_lookup lc C F i :
  flux_corr lc C F !! i =
  (fun x => ((x - (Fin 1 - C) * np_median (flux lc)) / F)%np) <$> flux lc !! i.
Proof.
  unfold flux_corr, flux_removed, excess_flux, median_flux.
  rewrite !list_lookup_fmap. now destruct (flux lc !! i).
Qed.

Lemma flux_err_corr_lookup lc F i :
  flux_err_corr lc F !! i = (fun x => (x / F)%np) <$> flux_err lc !! i.
Proof. unfold flux_err_corr. now rewrite list_lookup_fmap. Qed.

(** C7. With FLFRCSAP = 1 the corrected flux is the flux minus the excess
    flux: at every index [i], [flux_corr[i]] is the same number as
    [flux[i] - (1 - CROWDSAP) * median(flux)]; the division by 1 changes
    nothing.  This holds for every flux sequence and every CROWDSAP, the
    special values included. *)
Theorem C7_unit_flux_fraction (lc : LightCurve) (CROWDSAP : npfloat)
    (i : nat) (x : npfloat) :
  flux lc !! i = Some x ->
  exists y, flux_corr lc CROWDSAP (Fin 1) !! i = Some y /\
            flux_removed lc CROWDSAP !! i = Some (x - excess_flux lc CROWDSAP)%np /\
            y ≡ (x - (Fin 1 - CROWDSAP) * np_median (flux lc))%np.
Proof.
  intros Hx. eexists. rewrite flux_corr_lookup, Hx. split; [reflexivity|].
  split.
  - unfold flux_removed. now rewrite list_lookup_fmap, Hx.
  - apply fdiv_one.
Qed.

Lemma C7_unit_flux_fraction_witness :
  exists y,
    flux_corr (mkLightCurve [] [Fin 100; Fin 110; Fin 90] []) (Fin (96 # 100)) (Fin 1)
      !! 1%nat = Some y /\
    flux_removed (mkLightCurve [] [Fin 100; Fin 110; Fin 90] []) (Fin (96 # 100))
      !! 1%nat =
      Some (Fin 110 - excess_flux (mkLightCurve [] [Fin 100; Fin 110; Fin 90] [])
                        (Fin (96 # 100)))%np /\
    y ≡ (Fin 110 - (Fin 1 - Fin (96 # 100)) * np_median [Fin 100; Fin 110; Fin 90])%np.
Proof.
  apply (C7_unit_flux_fraction
           (mkLightCurve [] [Fin 100; Fin 110; Fin 90] []) (Fin (96 # 100)) 1 (Fin 110)).
  reflexivity.
Defined.

(** ** Order statistics: the k-th element of a sorted rearrangement *)

Lemma count_if_perm (p : Q -> bool) (l l' : list Q) :
  l ≡ₚ l' -> count_if p l = count_if p l'.
Proof.
  induction 1 as [|x l l' _ IH|x y l|l l' l'' _ IH1 _ IH2]; simpl; lia.
Qed.

Lemma count_if_mono (p q : Q -> bool) (l : list Q) :
  (forall x, p x = true -> q x = true) -> (count_if p l <= count_if q l)%nat.
Proof.
  intros Hpq. induction l as [|x l IH]; simpl; [lia|].
  destruct (p x) eqn:Hp; [rewrite (Hpq x Hp)|destruct (q x)]; lia.
Qed.

Lemma count_if_none (p : Q -> bool) (l : list Q) :
  Forall (fun x => p x = false) l -> count_if p l = 0%nat.
Proof.
  induction 1 as [|x l Hx _ IH]; simpl; [reflexivity|]. now rewrite Hx, IH.
Qed.

Lemma below_spec (v x : Q) : below v x = true <-> x < v.
Proof.
  unfold below. rewrite negb_true_iff. split.
  - intros H. apply Qnot_le_lt. intros Hle.
    apply Qle_bool_iff in Hle. congruence.
  - intros H. destruct (Qle_bool v x) eqn:E; [|reflexivity].
    apply Qle_bool_iff in E. exfalso. now apply (Qlt_not_le x v).
Qed.

Lemma at_most_spec (v x : Q) : at_most v x = true <-> x <= v.
Proof. apply Qle_bool_iff. Qed.

#[global] Instance Qle_transitive : Transitive Qle.
Proof. intros x y z. apply Qle_trans. Qed.

(** In a sorted list, fewer than [k + 1] elements lie strictly below the
    element at index [k], and at least [k + 1] lie at or below it. *)
Lemma sorted_rank (s : list Q) (k : nat) (v : Q) :
  StronglySorted Qle s -> s !! k = Some v ->
  (count_if (below v) s <= k)%nat /\ (k < count_if (at_most v) s)%nat.
Proof.
  intros Hs. revert k. induction Hs as [|a t Ht IH Ha]; intros k Hk.
  - discriminate Hk.
  - destruct k as [|k]; simpl in Hk.
    + injection Hk as ->. simpl.
      assert (below v v = false) as ->.
      { destruct (below v v) eqn:E; [|reflexivity].
        apply below_spec in E. now apply Qlt_irrefl in E. }
      assert (at_most v v = true) as -> by (apply at_most_spec, Qle_refl).
      rewrite count_if_none; [lia|].
      eapply Forall_impl; [exact Ha|]. intros x Hx. simpl in Hx.
      destruct (below v x) eqn:E; [|reflexivity].
      apply below_spec in E. exfalso. now apply (Qlt_not_le x v).
    + destruct (IH k Hk) as [IH1 IH2]. simpl.
      assert (at_most v a = true) as ->.
      { apply at_most_spec. rewrite Forall_forall in Ha.
        apply Ha. eapply list_elem_of_lookup_2. exact Hk. }
      destruct (below v a); lia.
Qed.

(** Two sorted rearrangements of the same data agree, up to [Qeq], at every
    index. *)
Lemma sorted_perm_lookup (s1 s2 : list Q) (k : nat) (v1 v2 : Q) :
  Sorted Qle s1 -> Sorted Qle s2 -> s1 ≡ₚ s2 ->
  s1 !! k = Some v1 -> s2 !! k = Some v2 -> v1 == v2.
Proof.
  intros H1%Sorted_StronglySorted H2%Sorted_StronglySorted HP Hk1 Hk2;
    try apply _.
  destruct (sorted_rank s1 k v1 H1 Hk1) as [A1 B1].
  destruct (sorted_rank s2 k v2 H2 Hk2) as [A2 B2].
  assert (forall u w n m,
             (count_if (below w) s1 <= n)%nat ->
             (m < count_if (at_most u) s1)%nat -> (n <= m)%nat -> u < w -> False)
    as Hcontra.
  { intros u w n m Hn Hm Hnm Hlt.
    pose proof (count_if_mono (at_most u) (below w) s1) as Hmono.
    assert (count_if (at_most u) s1 <= count_if (below w) s1)%nat; [|lia].
    apply Hmono. intros x Hx. apply at_most_spec in Hx. apply below_spec.
    eapply Qle_lt_trans; eassumption. }
  rewrite <- (count_if_perm (below v2) _ _ HP) in A2.
  rewrite <- (count_if_perm (at_most v2) _ _ HP) in B2.
  apply Qle_antisym; apply Qnot_lt_le; intros Hlt.
  - exact (Hcontra v2 v1 k k A1 B2 (Nat.le_refl k) Hlt).
  - exact (Hcontra v1 v2 k k A2 B1 (Nat.le_refl k) Hlt).
Qed.

Lemma middle_value_unique (s1 s2 : list Q) (m1 m2 : Q) :
  Sorted Qle s1 -> Sorted Qle s2 -> s1 ≡ₚ s2 ->
  middle_value s1 m1 -> middle_value s2 m2 -> m1 == m2.
Proof.
  intros H1 H2 HP. unfold middle_value.
  rewrite <- (Permutation_length HP).
  destruct (Nat.odd (length s1)).
  - intros (a1 & Ha1 & ->) (a2 & Ha2 & ->).
    exact (sorted_perm_lookup s1 s2 _ a1 a2 H1 H2 HP Ha1 Ha2).
  - intros (a1 & b1 & Ha1 & Hb1 & ->) (a2 & b2 & Ha2 & Hb2 & ->).
    rewrite (sorted_perm_lookup s1 s2 _ a1 a2 H1 H2 HP Ha1 Ha2).
    rewrite (sorted_perm_lookup s1 s2 _ b1 b2 H1 H2 HP Hb1 Hb2).
    reflexivity.
Qed.

(** The median is unique up to [Qeq]. *)
Lemma standard_median_unique (l : list Q) (m1 m2 : Q) :
  standard_median l m1 -> standard_median l m2 -> m1 == m2.
Proof.
  intros (s1 & P1 & S1 & M1) (s2 & P2 & S2 & M2).
  apply (middle_value_unique s1 s2); try assumption.
  now rewrite P1, P2.
Qed.

(** ** [np_median] on finite data is the standard median *)

#[global] Instance fle_total : Total fle.
Proof.
  intros [a| | |] [b| | |]; unfold fle; simpl; auto.
  destruct (Qlt_le_dec a b) as [H|H].
  - left. apply Qle_bool_iff. now apply Qlt_le_weak.
  - right. now apply Qle_bool_iff.
Qed.

Lemma existsb_is_nan_fin (l : list Q) : existsb is_nan (Fin <$> l) = false.
Proof. induction l; simpl; auto. Qed.

Lemma all_finite_fin (l : list Q) :
  Forall (fun x => is_finite x = true) (Fin <$> l).
Proof. induction l; simpl; constructor; auto. Qed.

Lemma fin_to_Q (L : list npfloat) :
  Forall (fun x => is_finite x = true) L -> Fin <$> (to_Q <$> L) = L.
Proof.
  induction 1 as [|x L Hx _ IH]; [reflexivity|].
  rewrite !fmap_cons, IH. destruct x; try discriminate Hx. reflexivity.
Qed.

Lemma to_Q_fin (l : list Q) : to_Q <$> (Fin <$> l) = l.
Proof.
  induction l as [|x l IH]; [reflexivity|]. now rewrite !fmap_cons, IH.
Qed.

Lemma sorted_fin (s : list Q) : Sorted fle (Fin <$> s) -> Sorted Qle s.
Proof.
  induction s as [|a t IH]; simpl; intros H; [constructor|].
  apply Sorted_inv in H as [Ht Hd]. constructor; [now apply IH|].
  destruct t as [|b t']; simpl in Hd; constructor.
  apply HdRel_inv in Hd. now apply Qle_bool_iff.
Qed.

(** The sorted copy that [np_median] takes of finite data. *)
Lemma merge_sort_fin (l : list Q) :
  exists s, merge_sort fle (Fin <$> l) = Fin <$> s /\ s ≡ₚ l /\ Sorted Qle s.
Proof.
  pose proof (merge_sort_Permutation fle (Fin <$> l)) as HP.
  assert (Forall (fun x => is_finite x = true) (merge_sort fle (Fin <$> l)))
    as Hfin by (rewrite HP; apply all_finite_fin).
  exists (to_Q <$> merge_sort fle (Fin <$> l)).
  rewrite (fin_to_Q _ Hfin). split; [reflexivity|]. split.
  - rewrite HP. now rewrite to_Q_fin.
  - apply sorted_fin. rewrite (fin_to_Q _ Hfin). apply Sorted_merge_sort, _.
Qed.

Lemma slice_fin (s : list Q) (lo hi : nat) :
  slice (Fin <$> s) lo hi = Fin <$> slice s lo hi.
Proof. unfold slice. now rewrite fmap_take, fmap_drop. Qed.

Lemma slice_one {A} (s : list A) (k : nat) (a : A) :
  s !! k = Some a -> slice s k (k + 1) = [a].
Proof.
  intros Ha. unfold slice. replace (k + 1 - k)%nat with 1%nat by lia.
  now rewrite (drop_S _ _ _ Ha).
Qed.

Lemma slice_two {A} (s : list A) (k : nat) (a b : A) :
  s !! k = Some a -> s !! S k = Some b -> slice s k (k + 2) = [a; b].
Proof.
  intros Ha Hb. unfold slice. replace (k + 2 - k)%nat with 2%nat by lia.
  now rewrite (drop_S _ _ _ Ha), (drop_S _ _ _ Hb).
Qed.

Lemma odd_half_lt (n : nat) : Nat.odd n = true -> (n / 2 < n)%nat.
Proof.
  intros H. destruct n as [|n]; [discriminate H|].
  apply Nat.div_lt; lia.
Qed.

Lemma even_half (n : nat) :
  Nat.odd n = false -> n <> 0%nat ->
  (1 <= n / 2)%nat /\ (n / 2 < n)%nat.
Proof.
  intros H Hn. destruct n as [|[|n]]; [congruence|discriminate H|].
  split.
  - apply (Nat.div_le_lower_bound _ 2 1); lia.
  - apply Nat.div_lt; lia.
Qed.

(** The median numpy computes of non-empty finite data is finite, and it is
    the standard median of the data. *)
Lemma np_median_fin (l : list Q) :
  l <> [] -> exists m, np_median (Fin <$> l) = Fin m /\ standard_median l m.
Proof.
  intros Hl. unfold np_median. rewrite existsb_is_nan_fin.
  destruct (merge_sort_fin l) as (s & -> & HP & HS).
  rewrite length_fmap.
  assert (length s <> 0%nat) as Hn.
  { rewrite (Permutation_length HP). now destruct l. }
  destruct (Nat.odd (length s)) eqn:Hodd.
  - pose proof (odd_half_lt _ Hodd) as Hk.
    destruct (lookup_lt_is_Some_2 s _ Hk) as [a Ha].
    rewrite slice_fin, (slice_one s _ a Ha).
    rewrite np_mean_fin by discriminate.
    eexists. split; [reflexivity|].
    exists s. split; [exact HP|]. split; [exact HS|].
    unfold middle_value. rewrite Hodd. exists a. split; [exact Ha|].
    unfold Qsum, Qlen; simpl. field.
  - destruct (even_half _ Hodd Hn) as [Hk1 Hk2].
    destruct (lookup_lt_is_Some_2 s _ Hk2) as [b Hb].
    assert (length s / 2 - 1 < length s)%nat as Hk0 by lia.
    destruct (lookup_lt_is_Some_2 s _ Hk0) as [a Ha].
    replace (length s / 2 + 1)%nat with (length s / 2 - 1 + 2)%nat by lia.
    rewrite slice_fin, (slice_two s _ a b Ha).
    2:{ replace (S (length s / 2 - 1)) with (length s / 2)%nat by lia.
        exact Hb. }
    rewrite np_mean_fin by discriminate.
    eexists. split; [reflexivity|].
    exists s. split; [exact HP|]. split; [exact HS|].
    unfold middle_value. rewrite Hodd. exists a, b.
    split; [exact Ha|]. split; [exact Hb|].
    unfold Qsum, Qlen; simpl. field.
Qed.

(** On empty data [np_median] is NaN. *)
Lemma np_median_nil : np_median [] = NaN.
Proof. reflexivity. Qed.

(** ** CROWDSAP = 1 *)

(** C6 as stated fails: with CROWDSAP = 1 and FLFRCSAP = 1/2 the flux 2 is
    corrected to 4, since the division by FLFRCSAP still takes place. *)
Lemma C6_counterexample :
  0 < 1 # 2 /\ 1 # 2 <= 1 /\
  flux (mkLightCurve [Fin 0] [Fin 2] [Fin 1]) !! 0%nat = Some (Fin 2) /\
  exists y,
    flux_corr (mkLightCurve [Fin 0] [Fin 2] [Fin 1]) (Fin 1) (Fin (1 # 2)) !! 0%nat
      = Some y /\
    y ≡ Fin 4 /\ ~ y ≡ Fin 2.
Proof.
  split; [reflexivity|]. split; [intros H; discriminate H|].
  split; [reflexivity|].
  eexists. split; [vm_compute; reflexivity|].
  split; [reflexivity|]. intros H; discriminate H.
Qed.

(** ** The export loop *)

Section ExportProofs.
Variable str_time : npfloat -> string.
Variable str_flux : npfloat -> string.

Lemma length_f lc : length (f lc) = length (flux lc).
Proof. unfold f. apply length_fmap. Qed.

Lemma length_e lc : length (e lc) = length (flux_err lc).
Proof. unfold e. apply length_fmap. Qed.

(** Inside the aligned range every line is defined. *)
Lemma line_at_is_Some lc i :
  length (flux lc) = length (time lc) ->
  length (flux_err lc) = length (time lc) ->
  (i < length (time lc))%nat ->
  is_Some (line_at str_time str_flux lc i).
Proof.
  intros Hf He Hi. unfold line_at.
  destruct (lookup_lt_is_Some_2 (time lc) i Hi) as [t ->].
  destruct (lookup_lt_is_Some_2 (f lc) i) as [fi ->].
  { rewrite length_f. lia. }
  destruct (lookup_lt_is_Some_2 (e lc) i) as [ei ->].
  { rewrite length_e. lia. }
  simpl. eauto.
Qed.

(** One pass of the loop body appends the line of its index. *)
Lemma body_step lc i line (fs : gmap string (list string)) acc :
  line_at str_time str_flux lc i = Some line ->
  fs !! fname = Some acc ->
  (t ← getitem (time lc) i;
   fi ← getitem (f lc) i;
   ei ← getitem (e lc) i;
   write fname (format str_time str_flux t fi ei)) fs
  = (<[fname := acc ++ [line]]> fs, Ok tt).
Proof.
  unfold line_at. intros Hline Hfs.
  unfold mbind, py_bind, getitem, write.
  destruct (time lc !! i) as [t|]; [|discriminate Hline].
  destruct (f lc !! i) as [fi|]; [|discriminate Hline].
  destruct (e lc !! i) as [ei|]; [|discriminate Hline].
  simpl in Hline. injection Hline as <-. now rewrite Hfs.
Qed.

(** The loop over [k, k + n) appends the lines of these indices, in
    order, to what the file holds. *)
Lemma loop_writes lc n : forall k (fs : gmap string (list string)) acc,
  length (flux lc) = length (time lc) ->
  length (flux_err lc) = length (time lc) ->
  (k + n <= length (time lc))%nat ->
  fs !! fname = Some acc ->
  exists lines,
    for_each (seq k n) (fun i =>
      t ← getitem (time lc) i;
      fi ← getitem (f lc) i;
      ei ← getitem (e lc) i;
      write fname (format str_time str_flux t fi ei)) fs
    = (<[fname := acc ++ lines]> fs, Ok tt) /\
    length lines = n /\
    forall j, (j < n)%nat -> lines !! j = line_at str_time str_flux lc (k + j).
Proof.
  induction n as [|n IH]; intros k fs acc Hf He Hk Hfs.
  - exists []. split; [|split; [reflexivity|intros j Hj; lia]].
    simpl. unfold mret, py_ret. now rewrite app_nil_r, insert_id.
  - destruct (line_at_is_Some lc k Hf He) as [line Hline]; [lia|].
    destruct (IH (S k) (<[fname := acc ++ [line]]> fs) (acc ++ [line]) Hf He)
      as (rest & Hrun & Hlen & Hrest); [lia|apply lookup_insert_eq|].
    exists (line :: rest). split; [|split].
    + simpl. unfold mbind at 1, py_bind at 1.
      rewrite (body_step lc k line fs acc Hline Hfs), Hrun.
      now rewrite insert_insert_eq, <- app_assoc.
    + simpl. now rewrite Hlen.
    + intros [|j] Hj; simpl.
      * now rewrite Nat.add_0_r.
      * rewrite Hrest by lia. f_equal. lia.
Qed.

(** The export of an aligned light curve of [n] samples. *)
Lemma save_aligned lc (fs : gmap string (list string)) :
  length (flux lc) = length (time lc) ->
  length (flux_err lc) = length (time lc) ->
  exists lines,
    save str_time str_flux lc fs = (<[fname := lines]> fs, Ok tt) /\
    length lines = length (time lc) /\
    forall j, (j < length (time lc))%nat ->
              lines !! j = line_at str_time str_flux lc j.
Proof.
  intros Hf He.
  destruct (loop_writes lc (length (time lc)) 0 (<[fname := []]> fs) [] Hf He)
    as (lines & Hrun & Hlen & Hlines); [lia|apply lookup_insert_eq|].
  exists lines. split; [|split; [exact Hlen|exact Hlines]].
  unfold save, range. unfold mbind at 1, py_bind at 1, open_w.
  rewrite Hrun. now rewrite insert_insert_eq.
Qed.
End ExportProofs.

(** C2. For an aligned light curve of [n] samples the export ends without
    an exception and leaves in the output file exactly [n] lines and
    nothing else (the file is created or truncated first, so there is no
    header and no earlier content); line [i] is
    [str(time[i])], two spaces, [str(f[i])], a space, [str(e[i])], a space
    and a newline.  This holds for every formatter [str]. *)
Theorem C2_serialization (str_time str_flux : npfloat -> string)
    (lc : LightCurve) (fs : gmap string (list string)) :
  length (flux lc) = length (time lc) ->
  length (flux_err lc) = length (time lc) ->
  exists lines,
    save str_time str_flux lc fs = (<[fname := lines]> fs, Ok tt) /\
    length lines = length (time lc) /\
    forall i t fi ei,
      time lc !! i = Some t -> f lc !! i = Some fi -> e lc !! i = Some ei ->
      lines !! i =
      Some (str_time t +:+ "  " +:+ str_flux fi +:+ " " +:+ str_flux ei +:+ " "
            +:+ newline).
Proof.
  intros Hf He.
  destruct (save_aligned str_time str_flux lc fs Hf He)
    as (lines & Hrun & Hlen & Hlines).
  exists lines. split; [exact Hrun|]. split; [exact Hlen|].
  intros i t fi ei Ht Hfi Hei.
  rewrite Hlines by (eapply lookup_lt_Some; exact Ht).
  unfold line_at. rewrite Ht, Hfi, Hei. reflexivity.
Qed.

Lemma C2_serialization_witness :
  exists lines,
    save show show (mkLightCurve [Fin 1; Fin 2] [Fin 2; Fin 6] [Fin 1; Fin 1]) ∅
    = (<[fname := lines]> ∅, Ok tt) /\
    length lines = 2%nat /\
    forall i t fi ei,
      [Fin 1; Fin 2] !! i = Some t ->
      f (mkLightCurve [Fin 1; Fin 2] [Fin 2; Fin 6] [Fin 1; Fin 1]) !! i = Some fi ->
      e (mkLightCurve [Fin 1; Fin 2] [Fin 2; Fin 6] [Fin 1; Fin 1]) !! i = Some ei ->
      lines !! i =
      Some (show t +:+ "  " +:+ show fi +:+ " " +:+ show ei +:+ " " +:+ newline).
Proof.
  apply (C2_serialization show show
           (mkLightCurve [Fin 1; Fin 2] [Fin 2; Fin 6] [Fin 1; Fin 1]) ∅).
  - reflexivity.
  - reflexivity.
Defined.

(** ** Missing validation: FLFRCSAP = 0 and empty input *)

(** C3 as stated fails: with FLFRCSAP = 0 the run ends normally, the
    corrected flux is +inf, the normalised columns are NaN, and the output
    file is written. *)
Lemma C3_counterexample :
  flux_corr (mkLightCurve [Fin 1] [Fin 100] [Fin 5]) (Fin (96 # 100)) (Fin 0)
    = [PInf] /\
  flux_err_corr (mkLightCurve [Fin 1] [Fin 100] [Fin 5]) (Fin 0) = [PInf] /\
  (notebook show show (mkLightCurve [Fin 1] [Fin 100] [Fin 5]) [Fin 1]
     (Fin (96 # 100)) (Fin 0) ∅).2 = Ok tt /\
  (notebook show show (mkLightCurve [Fin 1] [Fin 100] [Fin 5]) [Fin 1]
     (Fin (96 # 100)) (Fin 0) ∅).1 !! fname
    = Some ["1/1  nan nan " +:+ newline] /\
  ~ raises (notebook show show (mkLightCurve [Fin 1] [Fin 100] [Fin 5]) [Fin 1]
              (Fin (96 # 100)) (Fin 0) ∅).2.
Proof.
  repeat split; try (vm_compute; reflexivity).
  intros [ex H]. vm_compute in H. discriminate H.
Qed.

(** C3, amended.  When FLFRCSAP is 0 no error is raised: every element of
    [flux_corr] and of [flux_err_corr] is an infinity or NaN, and for an
    aligned input of [n] samples with finite time stamps (what
    [lk.LightCurve] accepts as they are) the run ends normally with the
    output file holding [n] lines. *)
Theorem C3_zero_flux_fraction (str_time str_flux : npfloat -> string)
    (corrected_lc : LightCurve) (tpf_time : list npfloat) (CROWDSAP : npfloat)
    (fs : gmap string (list string)) :
  Forall (fun t => is_finite t = true) tpf_time ->
  length (flux corrected_lc) = length tpf_time ->
  length (flux_err corrected_lc) = length tpf_time ->
  Forall (fun x => is_finite x = false) (flux_corr corrected_lc CROWDSAP (Fin 0)) /\
  Forall (fun x => is_finite x = false) (flux_err_corr corrected_lc (Fin 0)) /\
  exists lines,
    notebook str_time str_flux corrected_lc tpf_time CROWDSAP (Fin 0) fs
    = (<[fname := lines]> fs, Ok tt) /\
    length lines = length tpf_time.
Proof.
  intros _ Hf He. split; [|split].
  - unfold flux_corr. apply Forall_fmap, Forall_forall.
    intros x _. apply fdiv_zero_not_finite.
  - unfold flux_err_corr. apply Forall_fmap, Forall_forall.
    intros x _. apply fdiv_zero_not_finite.
  - unfold notebook.
    destruct (save_aligned str_time str_flux
                (lc_cbv_corr corrected_lc CROWDSAP (Fin 0) tpf_time) fs)
      as (lines & Hrun & Hlen & _).
    + simpl. now rewrite length_flux_corr.
    + simpl. now rewrite length_flux_err_corr.
    + exists lines. split; [exact Hrun|exact Hlen].
Qed.

Lemma C3_zero_flux_fraction_witness :
  Forall (fun x => is_finite x = false)
    (flux_corr (mkLightCurve [Fin 1] [Fin 100] [Fin 5]) (Fin (96 # 100)) (Fin 0)) /\
  Forall (fun x => is_finite x = false)
    (flux_err_corr (mkLightCurve [Fin 1] [Fin 100] [Fin 5]) (Fin 0)) /\
  exists lines,
    notebook show show (mkLightCurve [Fin 1] [Fin 100] [Fin 5]) [Fin 1]
      (Fin (96 # 100)) (Fin 0) ∅
    = (<[fname := lines]> ∅, Ok tt) /\
    length lines = 1%nat.
Proof.
  apply (C3_zero_flux_fraction show show
           (mkLightCurve [Fin 1] [Fin 100] [Fin 5]) [Fin 1] (Fin (96 # 100)) ∅).
  - repeat constructor.
  - reflexivity.
  - reflexivity.
Defined.

(** C4 as stated fails: on empty input the run ends normally; the median is
    NaN and an empty output file is written. *)
Lemma C4_counterexample :
  median_flux (mkLightCurve [] [] []) = NaN /\
  flux_corr (mkLightCurve [] [] []) (Fin (96 # 100)) (Fin (93 # 100)) = [] /\
  (notebook show show (mkLightCurve [] [] []) []
     (Fin (96 # 100)) (Fin (93 # 100)) ∅).2 = Ok tt /\
  (notebook show show (mkLightCurve [] [] []) []
     (Fin (96 # 100)) (Fin (93 # 100)) ∅).1 !! fname = Some [] /\
  ~ raises (notebook show show (mkLightCurve [] [] []) []
              (Fin (96 # 100)) (Fin (93 # 100)) ∅).2.
Proof.
  repeat split; try (vm_compute; reflexivity).
  intros [ex H]. vm_compute in H. discriminate H.
Qed.

(** C4, amended.  When the input is empty no error is raised: the median is
    NaN, the corrected flux is empty, and the run ends normally with an
    empty output file. *)
Theorem C4_empty_input (str_time str_flux : npfloat -> string)
    (corrected_lc : LightCurve) (CROWDSAP FLFRCSAP : npfloat)
    (fs : gmap string (list string)) :
  flux corrected_lc = [] ->
  median_flux corrected_lc = NaN /\
  flux_corr corrected_lc CROWDSAP FLFRCSAP = [] /\
  notebook str_time str_flux corrected_lc [] CROWDSAP FLFRCSAP fs
  = (<[fname := []]> fs, Ok tt).
Proof.
  intros Hflux. split; [|split].
  - unfold median_flux. now rewrite Hflux.
  - unfold flux_corr, flux_removed. now rewrite Hflux.
  - reflexivity.
Qed.

Lemma C4_empty_input_witness :
  median_flux (mkLightCurve [] [] []) = NaN /\
  flux_corr (mkLightCurve [] [] []) (Fin (96 # 100)) (Fin (93 # 100)) = [] /\
  notebook show show (mkLightCurve [] [] []) [] (Fin (96 # 100)) (Fin (93 # 100)) ∅
  = (<[fname := []]> ∅, Ok tt).
Proof.
  apply (C4_empty_input show show (mkLightCurve [] [] [])
           (Fin (96 # 100)) (Fin (93 # 100)) ∅).
  reflexivity.
Defined.

(** ** The worked example *)

(** C9 as stated fails in its last part: the error column is constant but
    the flux column is not, so [e[i] / f[i]] differs from row to row; it is
    5/96 in row 0 and 5/106 in row 1. *)
Lemma C9_counterexample :
  exists e0 f0 e1 f1,
    e example_corr !! 0%nat = Some e0 /\ f example_corr !! 0%nat = Some f0 /\
    e example_corr !! 1%nat = Some e1 /\ f example_corr !! 1%nat = Some f1 /\
    (e0 / f0)%np ≡ Fin (5 / 96) /\
    (e1 / f1)%np ≡ Fin (5 / 106) /\
    ~ (e0 / f0)%np ≡ (e1 / f1)%np.
Proof.
  do 4 eexists.
  do 4 (split; [vm_compute; reflexivity|]).
  split; [Qclosed|]. split; Qclosed.
Qed.

(** * Further properties of the three cells *)

(** ** A NaN sample *)

Lemma fold_fadd_nan (l : list npfloat) : fold_left fadd l NaN = NaN.
Proof. induction l as [|x l IH]; simpl; [reflexivity|exact IH]. Qed.

Lemma fadd_nan_r (x : npfloat) : (x + NaN)%np = NaN.
Proof. now destruct x. Qed.

Lemma fmul_nan_r (x : npfloat) : (x * NaN)%np = NaN.
Proof. now destruct x. Qed.

Lemma fdiv_nan_r (x : npfloat) : (x / NaN)%np = NaN.
Proof. now destruct x. Qed.

Lemma fdiv_nan_l (x : npfloat) : (NaN / x)%np = NaN.
Proof. reflexivity. Qed.

(** The sum of data that hold a NaN is NaN, whatever the start value. *)
Lemma fold_fadd_has_nan (l : list npfloat) (acc : npfloat) :
  existsb is_nan l = true -> fold_left fadd l acc = NaN.
Proof.
  revert acc. induction l as [|x l IH]; intros acc H; simpl in *.
  - discriminate H.
  - destruct x; simpl in H; try (now apply IH).
    rewrite fadd_nan_r. apply fold_fadd_nan.
Qed.

Lemma np_mean_has_nan (l : list npfloat) :
  existsb is_nan l = true -> np_mean l = NaN.
Proof.
  intros H. unfold np_mean, np_sum. now rewrite fold_fadd_has_nan.
Qed.

Lemma existsb_all_nan (l : list npfloat) :
  l <> [] -> Forall (fun y => y = NaN) l -> existsb is_nan l = true.
Proof.
  intros Hne Hall. destruct Hall as [|x l -> _]; [congruence|reflexivity].
Qed.

(** X1. One NaN among the flux samples spoils the whole output: the median
    is NaN, every element of [flux_corr] is NaN, and so is every element of
    the two normalised columns [f] and [e] that the export writes, whatever
    CROWDSAP, FLFRCSAP and the error column are. *)
Theorem nan_sample_spoils_output (lc : LightCurve) (tm : list npfloat)
    (CROWDSAP FLFRCSAP : npfloat) :
  existsb is_nan (flux lc) = true ->
  median_flux lc = NaN /\
  Forall (fun y => y = NaN) (flux_corr lc CROWDSAP FLFRCSAP) /\
  Forall (fun y => y = NaN) (f (lc_cbv_corr lc CROWDSAP FLFRCSAP tm)) /\
  Forall (fun y => y = NaN) (e (lc_cbv_corr lc CROWDSAP FLFRCSAP tm)).
Proof.
  intros Hnan.
  assert (median_flux lc = NaN) as Hmed.
  { unfold median_flux, np_median. now rewrite Hnan. }
  assert (Forall (fun y => y = NaN) (flux_corr lc CROWDSAP FLFRCSAP)) as Hcorr.
  { unfold flux_corr, flux_removed, excess_flux. rewrite Hmed.
    rewrite <- list_fmap_compose. apply Forall_fmap, Forall_forall.
    intros x _. simpl. rewrite fmul_nan_r. unfold fsub. simpl.
    now rewrite fadd_nan_r. }
  assert (np_mean (flux_corr lc CROWDSAP FLFRCSAP) = NaN) as Hmean.
  { apply np_mean_has_nan, existsb_all_nan; [|exact Hcorr].
    intros E. apply (f_equal length) in E. rewrite length_flux_corr in E.
    destruct (flux lc); [discriminate Hnan|discriminate E]. }
  split; [exact Hmed|]. split; [exact Hcorr|]. split.
  - unfold f. cbn [flux lc_cbv_corr]. rewrite Hmean.
    apply Forall_fmap, Forall_forall. intros x _. apply fdiv_nan_r.
  - unfold e. cbn [flux flux_err lc_cbv_corr]. rewrite Hmean.
    apply Forall_fmap, Forall_forall. intros x _. apply fdiv_nan_r.
Qed.

Lemma nan_sample_spoils_output_witness :
  median_flux (mkLightCurve [] [Fin 100; NaN; Fin 90] [Fin 5; Fin 5; Fin 5]) = NaN /\
  Forall (fun y => y = NaN)
    (flux_corr (mkLightCurve [] [Fin 100; NaN; Fin 90] [Fin 5; Fin 5; Fin 5])
       (Fin (96 # 100)) (Fin (93 # 100))) /\
  Forall (fun y => y = NaN)
    (f (lc_cbv_corr (mkLightCurve [] [Fin 100; NaN; Fin 90] [Fin 5; Fin 5; Fin 5])
          (Fin (96 # 100)) (Fin (93 # 100)) [Fin 0; Fin 1; Fin 2])) /\
  Forall (fun y => y = NaN)
    (e (lc_cbv_corr (mkLightCurve [] [Fin 100; NaN; Fin 90] [Fin 5; Fin 5; Fin 5])
          (Fin (96 # 100)) (Fin (93 # 100)) [Fin 0; Fin 1; Fin 2])).
Proof.
  apply (nan_sample_spoils_output
           (mkLightCurve [] [Fin 100; NaN; Fin 90] [Fin 5; Fin 5; Fin 5])
           [Fin 0; Fin 1; Fin 2] (Fin (96 # 100)) (Fin (93 # 100))).
  reflexivity.
Defined.

(** ** The export and the file system *)

Section ExportFrame.
Variable str_time : npfloat -> string.
Variable str_flux : npfloat -> string.

(** The lines of an aligned export are fixed by the light curve. *)
Lemma lines_determined lc (l1 l2 : list string) :
  length l1 = length (time lc) ->
  length l2 = length (time lc) ->
  (forall j, (j < length (time lc))%nat ->
             l1 !! j = line_at str_time str_flux lc j) ->
  (forall j, (j < length (time lc))%nat ->
             l2 !! j = line_at str_time str_flux lc j) ->
  l1 = l2.
Proof.
  intros H1 H2 L1 L2. apply list_eq. intros j.
  destruct (Nat.lt_ge_cases j (length (time lc))) as [Hj|Hj].
  - now rewrite L1, L2.
  - rewrite !lookup_ge_None_2 by lia. reflexivity.
Qed.

(** Whatever happens in it, one pass of the loop body leaves the files of
    other names alone. *)
Lemma body_frame lc i (fs : gmap string (list string)) (name : string) :
  name <> fname ->
  ((t ← getitem (time lc) i;
    fi ← getitem (f lc) i;
    ei ← getitem (e lc) i;
    write fname (format str_time str_flux t fi ei)) fs).1 !! name = fs !! name.
Proof.
  intros Hname. unfold mbind, py_bind, getitem, write.
  destruct (time lc !! i); [|reflexivity].
  destruct (f lc !! i); [|reflexivity].
  destruct (e lc !! i); [|reflexivity].
  simpl. now rewrite lookup_insert_ne.
Qed.

Lemma loop_frame lc (idx : list nat) : forall (fs : gmap string (list string)) name,
  name <> fname ->
  (for_each idx (fun i =>
     t ← getitem (time lc) i;
     fi ← getitem (f lc) i;
     ei ← getitem (e lc) i;
     write fname (format str_time str_flux t fi ei)) fs).1 !! name = fs !! name.
Proof.
  induction idx as [|i idx IH]; intros fs name Hname; [reflexivity|].
  simpl. unfold mbind at 1, py_bind at 1.
  pose proof (body_frame lc i fs name Hname) as Hb.
  destruct ((t ← getitem (time lc) i;
             fi ← getitem (f lc) i;
             ei ← getitem (e lc) i;
             write fname (format str_time str_flux t fi ei)) fs)
    as [fs' [[]|ex]]; simpl in Hb.
  - now rewrite IH.
  - exact Hb.
Qed.
End ExportFrame.

(** X2. The export touches one file only: after [save], on any light curve
    and whether it ended normally or on an exception, every file of another
    name holds what it held before. *)
Theorem save_touches_only_fname (str_time str_flux : npfloat -> string)
    (lc : LightCurve) (fs : gmap string (list string)) (name : string) :
  name <> fname ->
  (save str_time str_flux lc fs).1 !! name = fs !! name.
Proof.
  intros Hname. unfold save. unfold mbind at 1, py_bind at 1, open_w.
  rewrite (loop_frame str_time str_flux lc _ _ name Hname).
  now rewrite lookup_insert_ne.
Qed.

Lemma save_touches_only_fname_witness :
  (save show show (mkLightCurve [Fin 0; Fin 1] [Fin 2; Fin 2] [Fin 1])
     {[ "notes.txt" := ["kept"] ]}).1 !! "notes.txt"
  = ({[ "notes.txt" := ["kept"] ]} : gmap string (list string)) !! "notes.txt".
Proof.
  apply (save_touches_only_fname show show
           (mkLightCurve [Fin 0; Fin 1] [Fin 2; Fin 2] [Fin 1])
           {[ "notes.txt" := ["kept"] ]} "notes.txt").
  discriminate.
Defined.

(** X3. The export overwrites: for an aligned light curve the content of
    the output file after [save] does not depend on what the file system
    held before, and running [save] a second time gives the same file
    system as running it once. *)
Theorem save_overwrites (str_time str_flux : npfloat -> string)
    (lc : LightCurve) (fs fs' : gmap string (list string)) :
  length (flux lc) = length (time lc) ->
  length (flux_err lc) = length (time lc) ->
  (save str_time str_flux lc fs).1 !! fname
    = (save str_time str_flux lc fs').1 !! fname /\
  save str_time str_flux lc (save str_time str_flux lc fs).1
    = save str_time str_flux lc fs.
Proof.
  intros Hf He.
  destruct (save_aligned str_time str_flux lc fs Hf He)
    as (l1 & R1 & N1 & L1).
  destruct (save_aligned str_time str_flux lc fs' Hf He)
    as (l2 & R2 & N2 & L2).
  destruct (save_aligned str_time str_flux lc (<[fname := l1]> fs) Hf He)
    as (l3 & R3 & N3 & L3).
  rewrite (lines_determined str_time str_flux lc l2 l1 N2 N1 L2 L1) in R2.
  rewrite (lines_determined str_time str_flux lc l3 l1 N3 N1 L3 L1) in R3.
  split.
  - rewrite R1, R2. simpl. now rewrite !lookup_insert_eq.
  - rewrite R1. simpl. rewrite R3. now rewrite insert_insert_eq.
Qed.

Lemma save_overwrites_witness :
  (save show show (mkLightCurve [Fin 1; Fin 2] [Fin 2; Fin 6] [Fin 1; Fin 1]) ∅).1
    !! fname
  = (save show show (mkLightCurve [Fin 1; Fin 2] [Fin 2; Fin 6] [Fin 1; Fin 1])
       {[ fname := ["old"] ]}).1 !! fname /\
  save show show (mkLightCurve [Fin 1; Fin 2] [Fin 2; Fin 6] [Fin 1; Fin 1])
    (save show show (mkLightCurve [Fin 1; Fin 2] [Fin 2; Fin 6] [Fin 1; Fin 1]) ∅).1
  = save show show (mkLightCurve [Fin 1; Fin 2] [Fin 2; Fin 6] [Fin 1; Fin 1]) ∅.
Proof.
  apply (save_overwrites show show
           (mkLightCurve [Fin 1; Fin 2] [Fin 2; Fin 6] [Fin 1; Fin 1])
           ∅ {[ fname := ["old"] ]}).
  - reflexivity.
  - reflexivity.
Defined.

(** ** The median and the order of the samples *)

(** X12. The median, and with it the excess flux, does not depend on the
    order of the samples: on finite data, rearranging the flux column
    leaves [median_flux] and [excess_flux] the same numbers. *)
Theorem median_flux_order_independent (tm tm' : list npfloat)
    (fl fl' er er' : list Q) (c : Q) :
  fl ≡ₚ fl' ->
  median_flux (mkLightCurve tm (Fin <$> fl) (Fin <$> er))
    ≡ median_flux (mkLightCurve tm' (Fin <$> fl') (Fin <$> er')) /\
  excess_flux (mkLightCurve tm (Fin <$> fl) (Fin <$> er)) (Fin c)
    ≡ excess_flux (mkLightCurve tm' (Fin <$> fl') (Fin <$> er')) (Fin c).
Proof.
  intros HP. unfold excess_flux, median_flux. cbn [flux].
  destruct fl as [|x0 fl0].
  - apply Permutation_nil_l in HP. subst fl'. split; exact I.
  - assert (x0 :: fl0 <> []) as Hne by discriminate.
    assert (fl' <> []) as Hne'.
    { intros ->. now apply Permutation_nil_r in HP. }
    destruct (np_median_fin _ Hne) as (m & Hm & Hstd).
    destruct (np_median_fin _ Hne') as (m' & Hm' & Hstd').
    rewrite Hm, Hm'.
    assert (m == m') as E.
    { apply (standard_median_unique fl'); [|exact Hstd'].
      destruct Hstd as (s & Hs & Hrest). exists s.
      split; [now rewrite Hs|exact Hrest]. }
    split.
    + exact E.
    + change ((1 - c) * m == (1 - c) * m'). now rewrite E.
Qed.

Lemma median_flux_order_independent_witness :
  median_flux (mkLightCurve [] (Fin <$> [100; 110; 90]) (Fin <$> []))
    ≡ median_flux (mkLightCurve [] (Fin <$> [110; 100; 90]) (Fin <$> [])) /\
  excess_flux (mkLightCurve [] (Fin <$> [100; 110; 90]) (Fin <$> [])) (Fin (96 # 100))
    ≡ excess_flux (mkLightCurve [] (Fin <$> [110; 100; 90]) (Fin <$> []))
        (Fin (96 # 100)).
Proof.
  apply (median_flux_order_independent [] [] [100; 110; 90] [110; 100; 90] [] []
           (96 # 100)).
  apply perm_swap.
Defined.

(** * Properties of the binary64 embedding *)

Section Binary64.
Import PrimFloat FloatOps FloatAxioms SpecFloat.
Local Open Scope float_scope.

(** ** The order of doubles *)

Lemma SFeqb_refl (z : spec_float) : z <> S754_nan -> SFeqb z z = true.
Proof.
  destruct z as [s|s| |s m e]; intros Hz; try congruence; unfold SFeqb; simpl.
  - reflexivity.
  - now destruct s.
  - rewrite Z.compare_refl, Pos.compare_cont_refl. now destruct s.
Qed.

Lemma is_nan_spec (x : float) :
  is_nan x = match Prim2SF x with S754_nan => true | _ => false end.
Proof.
  unfold is_nan. rewrite eqb_spec.
  destruct (Prim2SF x) eqn:E; try reflexivity;
    rewrite SFeqb_refl; try reflexivity; discriminate.
Qed.

Lemma SFleb_total (x y : spec_float) :
  x <> S754_nan -> y <> S754_nan -> SFleb x y = true \/ SFleb y x = true.
Proof.
  destruct x as [sx|sx| |sx mx ex], y as [sy|sy| |sy my ey];
    intros Hx Hy; try congruence; unfold SFleb; simpl;
    try (destruct sx; auto; fail); try (destruct sy; auto; fail);
    try (destruct sx, sy; auto; fail).
  rewrite (Z.compare_antisym ex ey).
  assert (Pos.compare_cont Eq my mx = CompOpp (Pos.compare_cont Eq mx my)) as ->
    by (symmetry; apply (Pos.compare_cont_antisym mx my Eq)).
  destruct sx, sy; auto;
    destruct (ex ?= ey)%Z; simpl; auto;
    destruct (Pos.compare_cont Eq mx my); simpl; auto.
Qed.

#[global] Instance B64_fle_total : Total B64.fle.
Proof.
  intros x y. unfold B64.fle. rewrite !is_nan_spec, !leb_spec.
  destruct (Prim2SF x) eqn:Ex; try (right; apply orb_true_r);
    destruct (Prim2SF y) eqn:Ey; try (left; apply orb_true_r);
    rewrite !orb_false_r; apply SFleb_total; discriminate.
Qed.

Lemma existsb_is_nan_false (a : list float) :
  existsb is_nan a = false -> Forall (fun x => is_nan x = false) a.
Proof.
  induction a as [|x a IH]; simpl; intros H; constructor.
  - now apply orb_false_elim in H.
  - apply IH. now apply orb_false_elim in H.
Qed.

Lemma sorted_leb (s : list float) :
  Forall (fun x => is_nan x = false) s ->
  Sorted B64.fle s -> Sorted (fun a b => (a <=? b) = true) s.
Proof.
  intros Hnan Hs. induction Hs as [|a l Hl IH Hd]; constructor.
  - apply IH. now inversion Hnan.
  - inversion Hnan as [|? ? _ Hl']; subst.
    destruct Hd as [|b l Hab]; constructor.
    unfold B64.fle in Hab. inversion Hl' as [|? ? Hb _]; subst.
    now rewrite Hb, orb_false_r in Hab.
Qed.

(** ** The median *)

(** Adding to -0.0 changes nothing. *)
Lemma neg_zero_add (x : float) : neg_zero + x = x.
Proof.
  apply Prim2SF_inj. rewrite add_spec.
  change (Prim2SF neg_zero) with (S754_zero true).
  destruct (Prim2SF x) as [[|]|[|]| |]; reflexivity.
Qed.

Lemma B64_np_mean_one (x : float) : B64.np_mean [x] = x / 1.
Proof.
  change (B64.np_mean [x]) with ((neg_zero + (neg_zero + x)) / 1).
  now rewrite !neg_zero_add.
Qed.

Lemma B64_np_mean_two (x y : float) : B64.np_mean [x; y] = (x + y) / 2.
Proof.
  change (B64.np_mean [x; y]) with ((neg_zero + (neg_zero + x + y)) / 2).
  now rewrite !neg_zero_add.
Qed.

(** What [np.median] returns on data without NaN: the mean of the middle
    one or two elements of the data in ascending order. *)
Lemma B64_np_median_sorted (a : list float) :
  a <> [] ->
  existsb is_nan a = false ->
  exists s,
    s ≡ₚ a /\ Sorted (fun x y => (x <=? y) = true) s /\
    if Nat.odd (length s) then
      exists x, s !! (length s / 2)%nat = Some x /\
                B64.np_median a = x / 1
    else
      exists x y, s !! (length s / 2 - 1)%nat = Some x /\
                  s !! (length s / 2)%nat = Some y /\
                  B64.np_median a = (x + y) / 2.
Proof.
  intros Hne Hnan. unfold B64.np_median. rewrite Hnan.
  pose proof (merge_sort_Permutation B64.fle a) as HP.
  set (s := merge_sort B64.fle a) in *.
  exists s. split; [exact HP|]. split.
  { apply sorted_leb.
    - rewrite HP. now apply existsb_is_nan_false.
    - apply Sorted_merge_sort, _. }
  assert (length s <> 0%nat) as Hn.
  { rewrite (Permutation_length HP). now destruct a. }
  destruct (Nat.odd (length s)) eqn:Hodd.
  - pose proof (odd_half_lt _ Hodd) as Hk.
    destruct (lookup_lt_is_Some_2 s _ Hk) as [x Hx].
    exists x. split; [exact Hx|].
    rewrite (slice_one s _ x Hx). apply B64_np_mean_one.
  - destruct (even_half _ Hodd Hn) as [Hk1 Hk2].
    destruct (lookup_lt_is_Some_2 s _ Hk2) as [y Hy].
    assert (length s / 2 - 1 < length s)%nat as Hk0 by lia.
    destruct (lookup_lt_is_Some_2 s _ Hk0) as [x Hx].
    exists x, y. split; [exact Hx|]. split; [exact Hy|].
    replace (length s / 2 + 1)%nat with (length s / 2 - 1 + 2)%nat by lia.
    rewrite (slice_two s _ x y Hx); [apply B64_np_mean_two|].
    replace (S (length s / 2 - 1)) with (length s / 2)%nat by lia.
    exact Hy.
Qed.

(** ** The crowding correction *)

Lemma B64_length_flux_corr lc C F :
  length (B64.flux_corr lc C F) = length (B64.flux lc).
Proof. unfold B64.flux_corr, B64.flux_removed. now rewrite !length_fmap. Qed.

Lemma B64_length_flux_err_corr lc F :
  length (B64.flux_err_corr lc F) = length (B64.flux_err lc).
Proof. unfold B64.flux_err_corr. now rewrite length_fmap. Qed.

Lemma B64_flux_corr_lookup lc C F i :
  B64.flux_corr lc C F !! i =
  (fun x => (x - (1 - C) * B64.median_flux lc) / F) <$> B64.flux lc !! i.
Proof.
  unfold B64.flux_corr, B64.flux_removed, B64.excess_flux.
  rewrite !list_lookup_fmap. now destruct (B64.flux lc !! i).
Qed.

(** C1 as stated fails: the two samples are both 2^1023, the largest power
    of two among the doubles, so the median of the claim is 2^1023, and
    with CROWDSAP = FLFRCSAP = 1 the formula of the claim gives
    [flux_corr[i] = flux[i]].  The code adds the two middle values first:
    the sum overflows, the median is infinite, the excess flux
    [(1 - 1) * inf] is NaN, and so is the corrected flux. *)
Lemma C1_counterexample :
  let lc := B64.mkLightCurve [0; 1] [0x1p+1023; 0x1p+1023] [1; 1] in
  Forall (fun x => B64.is_finite x = true) (B64.flux lc) /\
  (0 <? 1) = true /\ (1 <=? 1) = true /\
  B64.median_flux lc = infinity /\
  B64.excess_flux lc 1 = nan /\
  B64.flux_corr lc 1 1 = [nan; nan] /\
  B64.flux_corr lc 1 1 <> B64.flux lc /\
  B64.flux_err_corr lc 1 = [1; 1].
Proof.
  repeat split; try (repeat constructor; fail); try (vm_compute; reflexivity).
  intros H. apply (f_equal (fun l => is_nan <$> l)) in H.
  vm_compute in H. discriminate H.
Qed.

(** C1, amended.  For non-empty sequences [flux] and [flux_err] of one
    length [n] and CROWDSAP, FLFRCSAP in (0,1], the correction returns two
    sequences of length [n] with
    [flux_corr[i] = (flux[i] - (1 - CROWDSAP) * median) / FLFRCSAP] and
    [flux_err_corr[i] = flux_err[i] / FLFRCSAP], every operation being the
    binary64 one (rounded to nearest; it can overflow).  The median is
    numpy's: NaN when a sample is NaN; otherwise, with the samples in
    ascending order, [a / 1] for the middle sample [a] when [n] is odd, and
    [(a + b) / 2] for the two middle samples when [n] is even, the sum
    being rounded (or overflowing) before the division. *)
Theorem C1_binary64 (lc : B64.LightCurve) (CROWDSAP FLFRCSAP : float) :
  B64.flux lc <> [] ->
  length (B64.flux lc) = length (B64.flux_err lc) ->
  (0 <? CROWDSAP) = true /\ (CROWDSAP <=? 1) = true ->
  (0 <? FLFRCSAP) = true /\ (FLFRCSAP <=? 1) = true ->
  length (B64.flux_corr lc CROWDSAP FLFRCSAP) = length (B64.flux lc) /\
  length (B64.flux_err_corr lc FLFRCSAP) = length (B64.flux lc) /\
  (forall i x, B64.flux lc !! i = Some x ->
     B64.flux_corr lc CROWDSAP FLFRCSAP !! i
     = Some ((x - (1 - CROWDSAP) * B64.median_flux lc) / FLFRCSAP)) /\
  (forall i y, B64.flux_err lc !! i = Some y ->
     B64.flux_err_corr lc FLFRCSAP !! i = Some (y / FLFRCSAP)) /\
  (existsb is_nan (B64.flux lc) = true -> B64.median_flux lc = nan) /\
  (existsb is_nan (B64.flux lc) = false ->
   exists s,
     s ≡ₚ B64.flux lc /\ Sorted (fun x y => (x <=? y) = true) s /\
     if Nat.odd (length s) then
       exists a, s !! (length s / 2)%nat = Some a /\
                 B64.median_flux lc = a / 1
     else
       exists a b, s !! (length s / 2 - 1)%nat = Some a /\
                   s !! (length s / 2)%nat = Some b /\
                   B64.median_flux lc = (a + b) / 2).
Proof.
  intros Hne Hlen _ _.
  split; [apply B64_length_flux_corr|].
  split; [rewrite B64_length_flux_err_corr; now symmetry|].
  split.
  { intros i x Hx. now rewrite B64_flux_corr_lookup, Hx. }
  split.
  { intros i y Hy. unfold B64.flux_err_corr. now rewrite list_lookup_fmap, Hy. }
  split.
  { intros Hnan. unfold B64.median_flux, B64.np_median. now rewrite Hnan. }
  intros Hnan. exact (B64_np_median_sorted _ Hne Hnan).
Qed.

Lemma C1_binary64_witness :
  let lc := B64.mkLightCurve [0; 1; 2; 3] [100; 110; 90; 120] [5; 5; 5; 5] in
  length (B64.flux_corr lc B64.d0_96 B64.d0_93) = length (B64.flux lc) /\
  length (B64.flux_err_corr lc B64.d0_93) = length (B64.flux lc) /\
  (forall i x, B64.flux lc !! i = Some x ->
     B64.flux_corr lc B64.d0_96 B64.d0_93 !! i
     = Some ((x - (1 - B64.d0_96) * B64.median_flux lc) / B64.d0_93)) /\
  (forall i y, B64.flux_err lc !! i = Some y ->
     B64.flux_err_corr lc B64.d0_93 !! i = Some (y / B64.d0_93)) /\
  (existsb is_nan (B64.flux lc) = true -> B64.median_flux lc = nan) /\
  (existsb is_nan (B64.flux lc) = false ->
   exists s,
     s ≡ₚ B64.flux lc /\ Sorted (fun x y => (x <=? y) = true) s /\
     if Nat.odd (length s) then
       exists a, s !! (length s / 2)%nat = Some a /\
                 B64.median_flux lc = a / 1
     else
       exists a b, s !! (length s / 2 - 1)%nat = Some a /\
                   s !! (length s / 2)%nat = Some b /\
                   B64.median_flux lc = (a + b) / 2).
Proof.
  apply (C1_binary64
           (B64.mkLightCurve [0; 1; 2; 3] [100; 110; 90; 120] [5; 5; 5; 5])
           B64.d0_96 B64.d0_93).
  - discriminate.
  - reflexivity.
  - split; vm_compute; reflexivity.
  - split; vm_compute; reflexivity.
Defined.

(** ** CROWDSAP = 1 *)

Lemma Prim2SF_zero : Prim2SF 0 = S754_zero false.
Proof. reflexivity. Qed.

(** Zero times a finite value is a zero. *)
Lemma B64_mul_zero_finite (m : float) :
  B64.is_finite m = true -> B64.is_zero (0 * m) = true.
Proof.
  unfold B64.is_finite, B64.is_zero. rewrite mul_spec, Prim2SF_zero.
  destruct (Prim2SF m); intros H; try discriminate H; reflexivity.
Qed.

(** Subtracting a zero from a value that is not a zero changes nothing. *)
Lemma B64_sub_zero (x z : float) :
  B64.is_zero z = true -> B64.is_zero x = false -> x - z = x.
Proof.
  unfold B64.is_zero. intros Hz Hx. apply Prim2SF_inj. rewrite sub_spec.
  destruct (Prim2SF z); try discriminate Hz.
  destruct (Prim2SF x); try discriminate Hx; reflexivity.
Qed.

(** Subtracting a zero from a zero gives a zero. *)
Lemma B64_zero_sub_zero (x z : float) :
  B64.is_zero z = true -> B64.is_zero x = true -> B64.is_zero (x - z) = true.
Proof.
  unfold B64.is_zero. rewrite sub_spec. intros Hz Hx.
  destruct (Prim2SF z) as [sz|sz| |sz mz ez]; try discriminate Hz.
  destruct (Prim2SF x) as [sx|sx| |sx mx ex]; try discriminate Hx.
  now destruct sx, sz.
Qed.

(** C6, amended.  With CROWDSAP = 1 the factor [1 - CROWDSAP] is zero, so
    whenever the median is finite the excess flux is a zero and nothing is
    subtracted: [flux_removed[i]] is [flux[i]] (a zero for a zero sample),
    and [flux_corr[i]] is [flux[i] / FLFRCSAP], one binary64 division.  The
    corrected flux is therefore not the input flux unless that division
    changes nothing.  (The median of finite samples can be infinite in
    binary64; then the excess flux is NaN.) *)
Theorem C6_binary64 (lc : B64.LightCurve) (FLFRCSAP : float) (i : nat) (x : float) :
  B64.is_finite (B64.median_flux lc) = true ->
  B64.flux lc !! i = Some x ->
  B64.is_zero (B64.excess_flux lc 1) = true /\
  (B64.is_zero x = false ->
   B64.flux_removed lc 1 !! i = Some x /\
   B64.flux_corr lc 1 FLFRCSAP !! i = Some (x / FLFRCSAP)) /\
  (B64.is_zero x = true ->
   exists r, B64.flux_removed lc 1 !! i = Some r /\ B64.is_zero r = true /\
             B64.flux_corr lc 1 FLFRCSAP !! i = Some (r / FLFRCSAP)).
Proof.
  intros Hfin Hx.
  assert (B64.is_zero (B64.excess_flux lc 1) = true) as Hex.
  { unfold B64.excess_flux. change (1 - 1) with 0.
    now apply B64_mul_zero_finite. }
  assert (B64.flux_removed lc 1 !! i = Some (x - B64.excess_flux lc 1)) as Hrem.
  { unfold B64.flux_removed. now rewrite list_lookup_fmap, Hx. }
  assert (B64.flux_corr lc 1 FLFRCSAP !! i
          = Some ((x - B64.excess_flux lc 1) / FLFRCSAP)) as Hcorr.
  { unfold B64.flux_corr. now rewrite list_lookup_fmap, Hrem. }
  split; [exact Hex|]. split.
  - intros Hnz. rewrite Hrem, Hcorr.
    now rewrite (B64_sub_zero x _ Hex Hnz).
  - intros Hz. exists (x - B64.excess_flux lc 1).
    split; [exact Hrem|]. split; [|exact Hcorr].
    now apply B64_zero_sub_zero.
Qed.

Lemma C6_binary64_witness :
  let lc := B64.mkLightCurve [0; 1; 2] [100; 110; 90] [5; 5; 5] in
  B64.is_zero (B64.excess_flux lc 1) = true /\
  (B64.is_zero 110 = false ->
   B64.flux_removed lc 1 !! 1%nat = Some 110 /\
   B64.flux_corr lc 1 B64.d0_93 !! 1%nat = Some (110 / B64.d0_93)) /\
  (B64.is_zero 110 = true ->
   exists r, B64.flux_removed lc 1 !! 1%nat = Some r /\ B64.is_zero r = true /\
             B64.flux_corr lc 1 B64.d0_93 !! 1%nat = Some (r / B64.d0_93)).
Proof.
  apply (C6_binary64 (B64.mkLightCurve [0; 1; 2] [100; 110; 90] [5; 5; 5])
           B64.d0_93 1 110).
  - vm_compute. reflexivity.
  - reflexivity.
Defined.

(** ** Division by a zero and by NaN *)

Lemma B64_div_zero_not_finite (x z : float) :
  B64.is_zero z = true -> B64.is_finite (x / z) = false.
Proof.
  unfold B64.is_zero, B64.is_finite. rewrite div_spec. intros Hz.
  destruct (Prim2SF z); try discriminate Hz.
  now destruct (Prim2SF x).
Qed.

Lemma B64_div_nan (x z : float) : is_nan z = true -> x / z = nan.
Proof.
  rewrite is_nan_spec. intros Hz. apply Prim2SF_inj. rewrite div_spec.
  destruct (Prim2SF z); try discriminate Hz.
  now destruct (Prim2SF x).
Qed.

(** ** The corrected error *)

(** C8 as stated fails: for [flux_err[i] = 3] and FLFRCSAP = 0.9 the ratio
    [flux_err_corr[i] / flux_err[i]] is 1.1111111111111109 where
    [1 / FLFRCSAP] is 1.1111111111111112; and for an infinite error the
    ratio is NaN. *)
Lemma C8_counterexample :
  let lc := B64.mkLightCurve [0; 1] [100; 100] [3; infinity] in
  exists y0 y1,
    B64.flux_err_corr lc B64.d0_9 = [y0; y1] /\
    y0 / 3 = 0x1.1c71c71c71c71p+0 /\
    1 / B64.d0_9 = 0x1.1c71c71c71c72p+0 /\
    (y0 / 3 =? 1 / B64.d0_9) = false /\
    y1 / infinity = nan.
Proof.
  do 2 eexists. split; [vm_compute; reflexivity|].
  repeat split; vm_compute; reflexivity.
Qed.

(** An infinite value divided by a finite non-zero one is infinite, and an
    infinite value divided by an infinite one is NaN. *)
Lemma B64_inf_ratio_nan (x z : float) :
  is_infinity x = true ->
  B64.is_finite z = true -> B64.is_zero z = false ->
  x / z / x = nan.
Proof.
  unfold is_infinity, B64.is_finite, B64.is_zero.
  rewrite eqb_spec, abs_spec. intros Hx Hz Hnz.
  apply Prim2SF_inj. rewrite !div_spec.
  destruct (Prim2SF z); try discriminate Hz; try discriminate Hnz.
  destruct (Prim2SF x); try discriminate Hx; reflexivity.
Qed.

(** C8, amended.  At every index [flux_err_corr[i]] is
    [flux_err[i] / FLFRCSAP], one binary64 division; the corrected errors
    are computed from the error column and FLFRCSAP alone, so two light
    curves with the same error column get the same corrected errors
    whatever their flux (CROWDSAP is not an argument at all).  That the
    ratio [flux_err_corr[i] / flux_err[i]] is exactly [1 / FLFRCSAP] is not
    guaranteed; for an infinite error and a finite non-zero FLFRCSAP it is
    NaN. *)
Theorem C8_binary64 (lc : B64.LightCurve) (FLFRCSAP : float) (i : nat) (err : float) :
  B64.flux_err lc !! i = Some err ->
  B64.flux_err_corr lc FLFRCSAP !! i = Some (err / FLFRCSAP) /\
  (forall lc', B64.flux_err lc' = B64.flux_err lc ->
               B64.flux_err_corr lc' FLFRCSAP = B64.flux_err_corr lc FLFRCSAP) /\
  (is_infinity err = true ->
   B64.is_finite FLFRCSAP = true -> B64.is_zero FLFRCSAP = false ->
   err / FLFRCSAP / err = nan).
Proof.
  intros Hi. split; [|split].
  - unfold B64.flux_err_corr. now rewrite list_lookup_fmap, Hi.
  - intros lc' Heq. unfold B64.flux_err_corr. now rewrite Heq.
  - apply B64_inf_ratio_nan.
Qed.

Lemma C8_binary64_witness :
  let lc := B64.mkLightCurve [0] [100] [3] in
  B64.flux_err_corr lc B64.d0_9 !! 0%nat = Some (3 / B64.d0_9) /\
  (forall lc', B64.flux_err lc' = B64.flux_err lc ->
               B64.flux_err_corr lc' B64.d0_9 = B64.flux_err_corr lc B64.d0_9) /\
  (is_infinity 3 = true ->
   B64.is_finite B64.d0_9 = true -> B64.is_zero B64.d0_9 = false ->
   3 / B64.d0_9 / 3 = nan).
Proof.
  apply (C8_binary64 (B64.mkLightCurve [0] [100] [3]) B64.d0_9 0 3).
  reflexivity.
Defined.

(** ** Normalisation *)

(** C5 as stated fails: in row 0 of the worked example [e[0] / f[0]] is
    0.052083333333333329 where [flux_err_corr[0] / flux_corr[0]] is
    0.052083333333333336 (rows 1 and 2 agree). *)
Lemma C5_counterexample :
  exists e0 f0 d0 c0,
    B64.e B64.example_corr !! 0%nat = Some e0 /\
    B64.f B64.example_corr !! 0%nat = Some f0 /\
    B64.flux_err B64.example_corr !! 0%nat = Some d0 /\
    B64.flux B64.example_corr !! 0%nat = Some c0 /\
    B64.is_zero c0 = false /\
    B64.is_zero (B64.np_mean (B64.flux B64.example_corr)) = false /\
    e0 / f0 = 0x1.aaaaaaaaaaaaap-5 /\
    d0 / c0 = 0x1.aaaaaaaaaaaabp-5 /\
    (e0 / f0 =? d0 / c0) = false.
Proof.
  do 4 eexists. do 4 (split; [vm_compute; reflexivity|]).
  repeat split; vm_compute; reflexivity.
Qed.

(** C5, amended.  [f[i]] and [e[i]] are [flux_corr[i]] and
    [flux_err_corr[i]] divided, each by one binary64 division, by the same
    denominator, the mean of the unnormalised corrected flux.  When that
    mean is a zero both are infinite or NaN, and when it is NaN both are
    NaN.  That [e[i] / f[i]] is exactly
    [flux_err_corr[i] / flux_corr[i]] is not guaranteed.  Here [lc] is any
    light curve, in the notebook [lc_cbv_corr]. *)
Theorem C5_binary64 (lc : B64.LightCurve) (i : nat) (c d : float) :
  B64.flux lc !! i = Some c ->
  B64.flux_err lc !! i = Some d ->
  B64.f lc !! i = Some (c / B64.np_mean (B64.flux lc)) /\
  B64.e lc !! i = Some (d / B64.np_mean (B64.flux lc)) /\
  (B64.is_zero (B64.np_mean (B64.flux lc)) = true ->
   B64.is_finite (c / B64.np_mean (B64.flux lc)) = false /\
   B64.is_finite (d / B64.np_mean (B64.flux lc)) = false) /\
  (is_nan (B64.np_mean (B64.flux lc)) = true ->
   c / B64.np_mean (B64.flux lc) = nan /\
   d / B64.np_mean (B64.flux lc) = nan).
Proof.
  intros Hc Hd. split; [|split; [|split]].
  - unfold B64.f. now rewrite list_lookup_fmap, Hc.
  - unfold B64.e. now rewrite list_lookup_fmap, Hd.
  - intros Hz. split; now apply B64_div_zero_not_finite.
  - intros Hn. split; now apply B64_div_nan.
Qed.

Lemma C5_binary64_witness :
  B64.f B64.example_corr !! 1%nat
    = Some (0x1.c7e9fa7e9fa7ep+6 / B64.np_mean (B64.flux B64.example_corr)) /\
  B64.e B64.example_corr !! 1%nat
    = Some (0x1.5816058160581p+2 / B64.np_mean (B64.flux B64.example_corr)) /\
  (B64.is_zero (B64.np_mean (B64.flux B64.example_corr)) = true ->
   B64.is_finite (0x1.c7e9fa7e9fa7ep+6 / B64.np_mean (B64.flux B64.example_corr))
     = false /\
   B64.is_finite (0x1.5816058160581p+2 / B64.np_mean (B64.flux B64.example_corr))
     = false) /\
  (is_nan (B64.np_mean (B64.flux B64.example_corr)) = true ->
   0x1.c7e9fa7e9fa7ep+6 / B64.np_mean (B64.flux B64.example_corr) = nan /\
   0x1.5816058160581p+2 / B64.np_mean (B64.flux B64.example_corr) = nan).
Proof.
  apply (C5_binary64 B64.example_corr 1
           0x1.c7e9fa7e9fa7ep+6 0x1.5816058160581p+2).
  - vm_compute. reflexivity.
  - vm_compute. reflexivity.
Defined.

(** C10 as stated fails: for the corrected flux [96, 106, 86], of mean
    96, the normalised flux has mean 1.0000000000000002; and for the
    corrected flux [inf], whose mean is not zero, the normalised flux is
    [NaN]. *)
Lemma C10_counterexample :
  B64.np_mean [96; 106; 86] = 96 /\
  B64.np_mean (B64.f (B64.mkLightCurve [0; 1; 2] [96; 106; 86] [5; 5; 5]))
    = 0x1.0000000000001p+0 /\
  (B64.np_mean (B64.f (B64.mkLightCurve [0; 1; 2] [96; 106; 86] [5; 5; 5])) =? 1)
    = false /\
  B64.is_zero (B64.np_mean [infinity]) = false /\
  B64.np_mean (B64.f (B64.mkLightCurve [0] [infinity] [5])) = nan.
Proof. repeat split; vm_compute; reflexivity. Qed.

(** C10, amended.  The normalised flux has as many elements as the
    corrected flux, and each is the corrected flux at that index divided,
    by one binary64 division, by the mean of the corrected flux.  When that
    mean is a zero every element is infinite or NaN, and when it is NaN
    every element is NaN.  That the mean of the normalised flux is exactly
    1 is not guaranteed. *)
Theorem C10_binary64 (lc : B64.LightCurve) (i : nat) (c : float) :
  B64.flux lc !! i = Some c ->
  length (B64.f lc) = length (B64.flux lc) /\
  B64.f lc !! i = Some (c / B64.np_mean (B64.flux lc)) /\
  (B64.is_zero (B64.np_mean (B64.flux lc)) = true ->
   exists y, B64.f lc !! i = Some y /\ B64.is_finite y = false) /\
  (is_nan (B64.np_mean (B64.flux lc)) = true -> B64.f lc !! i = Some nan).
Proof.
  intros Hc.
  assert (B64.f lc !! i = Some (c / B64.np_mean (B64.flux lc))) as Hf.
  { unfold B64.f. now rewrite list_lookup_fmap, Hc. }
  split; [unfold B64.f; apply length_fmap|]. split; [exact Hf|]. split.
  - intros Hz. eexists. split; [exact Hf|].
    now apply B64_div_zero_not_finite.
  - intros Hn. rewrite Hf. f_equal. now apply B64_div_nan.
Qed.

Lemma C10_binary64_witness :
  let lc := B64.mkLightCurve [0; 1; 2] [96; 106; 86] [5; 5; 5] in
  length (B64.f lc) = length (B64.flux lc) /\
  B64.f lc !! 1%nat = Some (106 / B64.np_mean (B64.flux lc)) /\
  (B64.is_zero (B64.np_mean (B64.flux lc)) = true ->
   exists y, B64.f lc !! 1%nat = Some y /\ B64.is_finite y = false) /\
  (is_nan (B64.np_mean (B64.flux lc)) = true -> B64.f lc !! 1%nat = Some nan).
Proof.
  apply (C10_binary64 (B64.mkLightCurve [0; 1; 2] [96; 106; 86] [5; 5; 5]) 1 106).
  reflexivity.
Defined.

(** ** The worked example *)

(** The three constants are the doubles nearest to 0.96, 0.93 and 0.9:
    they lie within half a unit in the last place, 2^-54. *)
Lemma literals_nearest :
  B64.within B64.d0_96 (96 # 100) (2 ^ (-54)) = true /\
  B64.within B64.d0_93 (93 # 100) (2 ^ (-54)) = true /\
  B64.within B64.d0_9 (9 # 10) (2 ^ (-54)) = true.
Proof. repeat split; vm_compute; reflexivity. Qed.

(** C9, amended.  On flux = [100, 110, 90], flux_err = [5, 5, 5],
    CROWDSAP = 0.96, FLFRCSAP = 0.93 the code computes, in binary64: the
    median 100; the excess flux 4.0000000000000036, which is 4 up to
    rounding; [flux_removed] = [96, 106, 86]; [flux_corr] =
    [103.2258064516129, 113.97849462365591, 92.473118279569889], which
    round to 103.226, 113.978, 92.473; [flux_err_corr] = 5.376344086021505
    in every row, which rounds to 5.376.  In the normalised output [e[i]]
    is the same in every row, and [e[i] / f[i]] differs from row to row:
    it is 5/96, 5/106 and 5/86 up to rounding. *)
Theorem C9_binary64 :
  B64.median_flux B64.example_lc = 100 /\
  B64.excess_flux B64.example_lc B64.d0_96 = 0x1.0000000000004p+2 /\
  B64.within (B64.excess_flux B64.example_lc B64.d0_96) 4 (1 # 10 ^ 14) = true /\
  B64.flux_removed B64.example_lc B64.d0_96 = [96; 106; 86] /\
  B64.flux_corr B64.example_lc B64.d0_96 B64.d0_93
    = [0x1.9ce739ce739cep+6; 0x1.c7e9fa7e9fa7ep+6; 0x1.71e4791e4791ep+6] /\
  B64.within 0x1.9ce739ce739cep+6 (103226 # 1000) (5 # 10000) = true /\
  B64.within 0x1.c7e9fa7e9fa7ep+6 (113978 # 1000) (5 # 10000) = true /\
  B64.within 0x1.71e4791e4791ep+6 (92473 # 1000) (5 # 10000) = true /\
  B64.flux_err_corr B64.example_lc B64.d0_93
    = [0x1.5816058160581p+2; 0x1.5816058160581p+2; 0x1.5816058160581p+2] /\
  B64.within 0x1.5816058160581p+2 (5376 # 1000) (5 # 10000) = true /\
  (exists e0 f0 f1 f2,
     B64.e B64.example_corr = [e0; e0; e0] /\
     B64.f B64.example_corr = [f0; f1; f2] /\
     B64.within (e0 / f0) (5 / 96) (1 # 10 ^ 15) = true /\
     B64.within (e0 / f1) (5 / 106) (1 # 10 ^ 15) = true /\
     B64.within (e0 / f2) (5 / 86) (1 # 10 ^ 15) = true /\
     (e0 / f0 =? e0 / f1) = false /\
     (e0 / f1 =? e0 / f2) = false /\
     (e0 / f0 =? e0 / f2) = false).
Proof.
  do 10 (split; [vm_compute; reflexivity|]).
  do 4 eexists. split; [vm_compute; reflexivity|].
  split; [vm_compute; reflexivity|].
  repeat split; vm_compute; reflexivity.
Qed.
End Binary64.
